(** * BookAPI: the /books router over a lowdb store

    Shallow embedding of [routes/books.js] (five Express handlers) and of
    the part of [index.js] that sets the store up, together with the lodash
    chain operations the handlers call ([get], [find], [push], [assign],
    [remove], [value], [write]).

    Modelling choices, each following the code:
    - a JSON object is the finite map of its own enumerable properties,
      which is all that object spread and [_.assign] read and write;
    - the store has two halves: the collection lowdb keeps in memory (every
      handler reads and mutates this one) and what [db.json] holds (only
      [write] touches it): the serialization of some collection, or a
      damaged text after a write that threw half-way;
    - a lodash chain is a deferred computation: nothing runs until [value]
      or [write], and every [value] replays the chain on the current
      collection;
    - [nanoid] and the file system are outside the repository: the handler
      takes the identifier [nanoid] returned and the outcome of the file
      write as inputs. *)

From stdpp Require Import base option list strings gmap fin_maps.

Open Scope string_scope.
Open Scope list_scope.
Open Scope nat_scope.

(** ** JSON values *)

Section Json.

(** JavaScript numbers are IEEE doubles.  No handler inspects a number,
    so the development is parametric in how they are represented. *)
Context {number : Type}.

#[warnings="-register-all"]
Inductive json : Type :=
| JNull
| JBool (b : bool)
| JNum (n : number)
| JStr (s : string)
| JArr (items : list json)
| JObj (fields : list (string * json)).

(** [x === s] for a string [s]: strict equality, no coercion. *)
Definition strict_eq_str (x : option json) (s : string) : bool :=
  match x with
  | Some (JStr t) => String.eqb t s
  | _ => false
  end.

End Json.

Arguments json : clear implicits.

(** A thrown JavaScript exception. *)
Inductive error : Type := Error (message : string).

Section Books.

Context {number : Type}.

(** A record of the collection, and a request body after [express.json()]:
    own enumerable properties by name. *)
Abbreviation book := (gmap string (json number)).

(** ** The store *)

(** What [db.json] holds.  [Serialized books]: the text
    [JSON.stringify] makes of the state whose collection is [books].  The
    text is not the collection: what parsing it gives back is not
    modelled ([JSON.stringify] writes an infinity as [null] and [-0] as
    [0]).  [Damaged]: a text that is no serialization, the empty or
    cut-off file a write leaves when it throws after truncating. *)
Inductive document : Type :=
| Serialized (books : list book)
| Damaged.

Record store : Type := Store {
  mem : list book;     (* db.getState().books *)
  file : document;     (* db.json *)
}.

(** [db.defaults({ books: [] }).write()] on a missing file. *)
Definition initial : store := Store [] (Serialized []).

(** How a call of [fs.writeFileSync(source, data)] ends: it returns; it
    throws before touching the file (the open failed); it throws after
    truncating the file, before the data is all there. *)
Inductive outcome : Type :=
| Done
| Refused (e : error)
| CutOff (e : error).

Definition thrown (fs : outcome) : option error :=
  match fs with
  | Done => None
  | Refused e | CutOff e => Some e
  end.

(** ** Computations that mutate the store and may throw *)

Definition M (A : Type) : Type := store → (error + A) * store.

Definition ret {A} (a : A) : M A := λ s, (inr a, s).

Definition throw {A} (e : error) : M A := λ s, (inl e, s).

Definition bind {A B} (m : M A) (k : A → M B) : M B :=
  λ s, match m s with
       | (inl e, s') => (inl e, s')
       | (inr a, s') => k a s'
       end.

Notation "'do' x <- m 'in' k" := (bind m (λ x, k))
  (at level 10, x name, m at level 100, k at level 200).

(** [try { m } catch (error) { h error }]: what [m] did to the store
    before throwing stays done. *)
Definition try_catch {A} (m : M A) (h : error → M A) : M A :=
  λ s, match m s with
       | (inl e, s') => h e s'
       | (inr a, s') => (inr a, s')
       end.

(** ** lodash chains on [db.get("books")] *)

(** [_.matches({ id: id })]: the element's [id] property is strictly
    equal to the string [id]. *)
Definition matches (id : string) (b : book) : bool :=
  strict_eq_str (b !! "id") id.

(** [.get("books")] *)
Definition get_books : M (list book) := λ s, (inr (mem s), s).

(** [.get("books").find({ id })]: the first matching element, with its
    position in the array (it is the object itself, not a copy), or
    [undefined]. *)
Definition find (id : string) : M (option (nat * book)) :=
  do l <- get_books in
  ret (list_find (λ b, matches id b = true) l).

(** [.push(book)] appends to the array in place. *)
Definition push (b : book) : M unit :=
  λ s, (inr tt, Store (mem s ++ [b]) (file s)).

(** [chain.assign(body)]: [_.assign] copies every own enumerable property
    of [body] onto the object the chain yields, in place.  On [undefined]
    the target is a fresh object. *)
Definition assign (body : book) (chain : M (option (nat * book))) : M book :=
  do r <- chain in
  match r with
  | Some (i, b) =>
      λ s, (inr (body ∪ b), Store (<[i := body ∪ b]> (mem s)) (file s))
  | None => ret body
  end.

(** [.remove({ id })] takes every matching element out of the array and
    yields the removed elements. *)
Definition remove (id : string) : M (list book) :=
  λ s, (inr (filter (λ b, matches id b = true) (mem s)),
        Store (filter (λ b, ¬ matches id b = true) (mem s)) (file s)).

(** [chain.write()]: run the chain, then [adapter.write(db.getState())],
    that is [fs.writeFileSync] of the whole serialized state, with outcome
    [fs]. *)
Definition write {A} (fs : outcome) (chain : M A) : M A :=
  do v <- chain in
  match fs with
  | Done => λ s, (inr v, Store (mem s) (Serialized (mem s)))
  | Refused e => throw e
  | CutOff e => λ s, (inl e, Store (mem s) Damaged)
  end.

(** ** Responses *)

Inductive payload : Type :=
| Books (l : list book)
| Book (b : book)
| Undefined
| Err (e : error).

Inductive response : Type :=
| SendStatus (code : nat)              (* res.sendStatus(code) *)
| Send (code : nat) (body : payload).  (* res.status(code).send(body) *)

Definition status (r : response) : nat :=
  match r with
  | SendStatus c => c
  | Send c _ => c
  end.


(** What [chain.value()] hands to [res.send]. *)
Definition sent (v : option (nat * book)) : payload :=
  match v with
  | Some (_, b) => Book b
  | None => Undefined
  end.

(** ** The handlers *)

Definition idLength : nat := 5.

(** [router.get("/")]: [res.send] is handed the chain itself, which
    serializes as its value. *)
Definition router_get_all : M response :=
  do books <- get_books in
  ret (Send 200 (Books books)).

(** [router.get("/:id")] *)
Definition router_get (id : string) : M response :=
  do book <- find id in
  match book with
  | None => ret (SendStatus 404)
  | Some (_, b) => ret (Send 200 (Book b))
  end.

(** [router.post("/")]; [gid] is what [nanoid(idLength)] returned.
    [{ id: gid, ...body }]: the properties of [body] are written after
    [id], so they win. *)
Definition router_post (fs : outcome) (gid : string) (body : book)
  : M response :=
  try_catch
    (let book := body ∪ {[ "id" := JStr gid ]} in
     do _ <- write fs (push book) in
     ret (Send 201 (Book book)))
    (λ error, ret (Send 500 (Err error))).

(** [router.put("/:id")]; [book] is the chain [find({ id })], run three
    times: by [book.value()] in the test, under [assign], and by
    [book.value()] again for the response, then on the updated
    collection. *)
Definition router_put (fs : outcome) (id : string) (body : book)
  : M response :=
  try_catch
    (let book := find id in
     do v <- book in
     match v with
     | None => ret (SendStatus 404)
     | Some _ =>
         do _ <- write fs (assign body book) in
         do v' <- book in
         ret (Send 200 (sent v'))
     end)
    (λ error, ret (Send 500 (Err error))).

(** [router.delete("/:id")]: the write happens whether or not anything was
    removed, and outside any [try], so an exception leaves the handler. *)
Definition router_delete (fs : outcome) (id : string) : M response :=
  do book <- write fs (remove id) in
  if Nat.eqb (length book) 0 then ret (SendStatus 404)
  else ret (SendStatus 200).

(** ** Vocabulary of the specification *)

(** "The record has this id": its [id] field is the string [id]. *)
Definition has_id (id : string) (b : book) : Prop :=
  b !! "id" = Some (JStr id).

(** "The record with this id", as [find] resolves it: the first one in
    the collection, at position [i]. *)
Definition first_with_id (id : string) (l : list book) (i : nat) (b : book)
  : Prop :=
  l !! i = Some b ∧ has_id id b
  ∧ ∀ j b', l !! j = Some b' → j < i → ¬ has_id id b'.

(** The string identifier of a record, when it has one. *)
Definition book_id (b : book) : option string :=
  match b !! "id" with
  | Some (JStr t) => Some t
  | _ => None
  end.

(** The [book.length] that [router.delete] tests: how many elements
    [remove] took out. *)
Definition removed_count (id : string) (s : store) : nat :=
  match fst (remove id s) with
  | inr removed => length removed
  | inl _ => 0
  end.

(** ** The router and the process around it *)

(** A request the router has a route for: [router.get("/")],
    [router.get("/:id")], [router.post("/")], [router.put("/:id")],
    [router.delete("/:id")], mounted under [/books]. *)
Inductive request : Type :=
| GET_all
| GET (id : string)
| POST (body : book)
| PUT (id : string) (body : book)
| DELETE (id : string).

(** What the outside world answers while one request is served: the
    string [nanoid(idLength)] returns and the outcome of the file write. *)
Record world : Type := World {
  generated : string;
  disk : outcome;
}.

Definition handle (w : world) (r : request) : M response :=
  match r with
  | GET_all => router_get_all
  | GET id => router_get id
  | POST body => router_post (disk w) (generated w) body
  | PUT id body => router_put (disk w) id body
  | DELETE id => router_delete (disk w) id
  end.

(** The process serves requests one after the other on the same [db]; an
    exception that leaves a handler ends that request, not the process. *)
Fixpoint run (trace : list (world * request)) (s : store) : store :=
  match trace with
  | [] => s
  | (w, r) :: rest => run rest (snd (handle w r s))
  end.

(** Clients that never send an [id] of their own, and a generator that
    never repeats an id of the collection. *)
Definition polite (s : store) (w : world) (r : request) : Prop :=
  match r with
  | POST body =>
      body !! "id" = None ∧ ∀ b, b ∈ mem s → ¬ has_id (generated w) b
  | PUT _ body => body !! "id" = None
  | _ => True
  end.

Fixpoint polite_trace (trace : list (world * request)) (s : store) : Prop :=
  match trace with
  | [] => True
  | (w, r) :: rest =>
      polite s w r ∧ polite_trace rest (snd (handle w r s))
  end.

End Books.

Arguments store : clear implicits.
Arguments document : clear implicits.
Arguments payload : clear implicits.
Arguments response : clear implicits.
Arguments M : clear implicits.
Arguments request : clear implicits.

(** ** Concrete requests and collections *)

Section Sample.

Context {number : Type}.

Local Abbreviation book := (gmap string (json number)).

Definition dune : book :=
  {[ "title" := JStr "Dune"; "author" := JStr "Herbert" ]}.

Definition emma : book :=
  {[ "title" := JStr "Emma"; "author" := JStr "Austen" ]}.

(** The store after [POST {title: "Dune", author: "Herbert"}] on an empty
    one, [nanoid] having returned ["V1StG"]. *)
Definition one_book : store number :=
  snd (router_post Done "V1StG" dune initial).

(** The record that store holds. *)
Definition dune_stored : book := dune ∪ {[ "id" := JStr "V1StG" ]}.

(** Request bodies for [PUT]. *)
Definition retitle : book := {[ "title" := JStr "Dune Messiah" ]}.
Definition new_author : book := {[ "author" := JStr "X" ]}.
Definition rename : book := {[ "id" := JStr "zz" ]}.

(** A [POST] body that brings its own, empty, id. *)
Definition emma_with_id : book := <["id" := JStr ""]> emma.

(** A second record, created under the generated id ["Uakgb"]. *)
Definition two_books : store number :=
  snd (router_post Done "Uakgb" emma one_book).

(** Two requests [POST {id: "x", ...}] in a row on an empty store. *)
Definition twice_x : store number :=
  snd (router_post Done "Uakgb" (<["id" := JStr "x"]> emma)
         (snd (router_post Done "V1StG" (<["id" := JStr "x"]> dune)
                 initial))).

(** A session in which every write succeeds and no client sends an id. *)
Definition session : list (world * request number) :=
  [ (World "V1StG" Done, POST dune);
    (World "Uakgb" Done, PUT "V1StG" retitle);
    (World "Uakgb" Done, POST emma);
    (World "x7Qpz" Done, GET "V1StG");
    (World "x7Qpz" Done, DELETE "Uakgb") ].

(** A session with a full disk in the middle and a client-chosen id. *)
Definition rough_session : list (world * request number) :=
  [ (World "V1StG" Done, POST dune);
    (World "Uakgb" (CutOff (Error "ENOSPC")), POST emma_with_id);
    (World "x7Qpz" (Refused (Error "EACCES")), PUT "V1StG" rename);
    (World "x7Qpz" Done, DELETE "Uakgb") ].

End Sample.

Arguments dune : clear implicits.
Arguments emma : clear implicits.
Arguments dune_stored : clear implicits.
Arguments retitle : clear implicits.
Arguments new_author : clear implicits.
Arguments rename : clear implicits.
Arguments emma_with_id : clear implicits.
Arguments one_book : clear implicits.
Arguments twice_x : clear implicits.
Arguments two_books : clear implicits.
Arguments session : clear implicits.
Arguments rough_session : clear implicits.

(** * Properties *)

Section Facts.

Context {number : Type}.

Local Abbreviation book := (gmap string (json number)).
Local Abbreviation store := (store number).

Implicit Types (s : store) (b body : book) (id gid : string)
  (l : list book) (fs : outcome).

Lemma matches_has_id id b : matches id b = true ↔ has_id id b.
Proof.
  unfold matches, has_id, strict_eq_str.
  destruct (b !! "id") as [[]|]; try (split; intros; congruence).
  rewrite String.eqb_eq. split; [intros -> | intros [= ->]]; done.
Qed.

Lemma not_matches_has_id id b : ¬ matches id b = true ↔ ¬ has_id id b.
Proof. by rewrite matches_has_id. Qed.

(** ** What each handler does, as one equation *)

Lemma find_eq id s :
  find id s = (inr (list_find (λ b, matches id b = true) (mem s)), s).
Proof. reflexivity. Qed.

Lemma router_get_all_eq s :
  router_get_all s = (inr (Send 200 (Books (mem s))), s).
Proof. reflexivity. Qed.

Lemma router_get_eq id s :
  router_get id s =
  (inr match list_find (λ b, matches id b = true) (mem s) with
       | Some (_, b) => Send 200 (Book b)
       | None => SendStatus 404
       end, s).
Proof.
  unfold router_get, bind. rewrite find_eq.
  by destruct (list_find _ _) as [[]|].
Qed.

Lemma router_post_eq fs gid body s :
  router_post fs gid body s =
  let b := body ∪ {[ "id" := JStr gid ]} in
  match fs with
  | Done =>
      (inr (Send 201 (Book b)),
       Store (mem s ++ [b]) (Serialized (mem s ++ [b])))
  | Refused e => (inr (Send 500 (Err e)), Store (mem s ++ [b]) (file s))
  | CutOff e => (inr (Send 500 (Err e)), Store (mem s ++ [b]) Damaged)
  end.
Proof. by destruct fs. Qed.

Lemma router_put_eq fs id body s :
  router_put fs id body s =
  match list_find (λ b, matches id b = true) (mem s) with
  | None => (inr (SendStatus 404), s)
  | Some (i, b) =>
      let m := <[i := body ∪ b]> (mem s) in
      match fs with
      | Done =>
          (inr (Send 200 (sent (list_find (λ b, matches id b = true) m))),
           Store m (Serialized m))
      | Refused e => (inr (Send 500 (Err e)), Store m (file s))
      | CutOff e => (inr (Send 500 (Err e)), Store m Damaged)
      end
  end.
Proof.
  unfold router_put, try_catch, bind, write, assign, bind.
  rewrite !find_eq.
  destruct (list_find _ (mem s)) as [[i b]|] eqn:Hfind; [|done].
  cbn beta iota. rewrite find_eq, Hfind. by destruct fs.
Qed.

Lemma router_delete_eq fs id s :
  router_delete fs id s =
  let removed := filter (λ b, matches id b = true) (mem s) in
  let kept := filter (λ b, ¬ matches id b = true) (mem s) in
  match fs with
  | Done =>
      (inr (if Nat.eqb (length removed) 0 then SendStatus 404
            else SendStatus 200),
       Store kept (Serialized kept))
  | Refused e => (inl e, Store kept (file s))
  | CutOff e => (inl e, Store kept Damaged)
  end.
Proof.
  unfold router_delete, bind, write, bind, remove. destruct fs; [|done..].
  simpl. by destruct (Nat.eqb _ 0).
Qed.

(** The collection in memory after each handler: the write has no part in
    it. *)
Lemma router_post_mem fs gid body s :
  mem (snd (router_post fs gid body s))
  = mem s ++ [body ∪ {[ "id" := JStr gid ]}].
Proof. rewrite router_post_eq. by destruct fs. Qed.

Lemma router_put_mem fs id body s :
  mem (snd (router_put fs id body s))
  = match list_find (λ b, matches id b = true) (mem s) with
    | Some (i, b) => <[i := body ∪ b]> (mem s)
    | None => mem s
    end.
Proof.
  rewrite router_put_eq. destruct (list_find _ _) as [[i b]|]; [|done].
  by destruct fs.
Qed.

Lemma router_delete_mem fs id s :
  mem (snd (router_delete fs id s))
  = filter (λ b, ¬ matches id b = true) (mem s).
Proof. rewrite router_delete_eq. by destruct fs. Qed.

(** ** Searching and filtering by id *)

Lemma find_none_iff id l :
  list_find (λ b, matches id b = true) l = None
  ↔ ∀ b, b ∈ l → ¬ has_id id b.
Proof.
  rewrite list_find_None, Forall_forall.
  by setoid_rewrite not_matches_has_id.
Qed.

Lemma find_some_iff id l :
  is_Some (list_find (λ b, matches id b = true) l)
  ↔ ∃ b, b ∈ l ∧ has_id id b.
Proof.
  split.
  - intros [[i b] [Hi [Hb _]]%list_find_Some]. exists b. split.
    + by eapply list_elem_of_lookup_2.
    + by apply matches_has_id.
  - intros (b & Hin & Hb). eapply list_find_elem_of; [done|].
    by apply matches_has_id.
Qed.

Lemma kept_no_match id l b :
  b ∈ filter (λ b, ¬ matches id b = true) l ↔ b ∈ l ∧ ¬ has_id id b.
Proof. rewrite list_elem_of_filter, not_matches_has_id. tauto. Qed.

Lemma removed_all_match id l b :
  b ∈ filter (λ b, matches id b = true) l ↔ b ∈ l ∧ has_id id b.
Proof. rewrite list_elem_of_filter, matches_has_id. tauto. Qed.

Lemma filter_all_kept id l :
  (∀ b, b ∈ l → ¬ has_id id b) →
  filter (λ b, ¬ matches id b = true) l = l.
Proof.
  induction l as [|a l IH]; intros H; [done|].
  rewrite filter_cons_True, IH; [done| |].
  - intros b Hb. apply H. by right.
  - apply not_matches_has_id, H. by left.
Qed.

Lemma removed_nil_iff id l :
  filter (λ b, matches id b = true) l = [] ↔ ∀ b, b ∈ l → ¬ has_id id b.
Proof.
  split.
  - intros Hnil b Hin Hb.
    assert (b ∈ filter (λ b, matches id b = true) l) as Hf
      by by apply removed_all_match.
    rewrite Hnil in Hf. by apply not_elem_of_nil in Hf.
  - intros H. destruct (filter _ l) as [|a r] eqn:E; [done|].
    assert (a ∈ filter (λ b, matches id b = true) l) as Ha
      by (rewrite E; by left).
    apply removed_all_match in Ha as [Hin Ha]. by destruct (H a).
Qed.

Lemma book_id_has_id id b : book_id b = Some id ↔ has_id id b.
Proof.
  unfold book_id, has_id.
  destruct (b !! "id") as [[]|]; split; intros; congruence.
Qed.

(** With pairwise distinct identifiers at most one element matches. *)
Lemma distinct_ids_one_match id l :
  NoDup (omap book_id l) →
  length (filter (λ b, matches id b = true) l) ≤ 1.
Proof.
  induction l as [|a l IH]; simpl; [intros; lia|].
  destruct (book_id a) as [t|] eqn:Ha.
  - intros [Hnot Hnd]%NoDup_cons. specialize (IH Hnd).
    destruct (decide (matches id a = true)) as [Hm|Hm].
    + rewrite filter_cons_True by done.
      apply matches_has_id, book_id_has_id in Hm.
      assert (t = id) as -> by congruence.
      assert (filter (λ b, matches id b = true) l = []) as ->; [|simpl; lia].
      apply removed_nil_iff. intros b Hb Hid. apply Hnot.
      apply list_elem_of_omap. exists b. split; [done|].
      by apply book_id_has_id.
    + by rewrite filter_cons_False.
  - intros Hnd. specialize (IH Hnd).
    rewrite filter_cons_False; [done|].
    rewrite matches_has_id, <- book_id_has_id. congruence.
Qed.

Lemma find_first id l i b :
  list_find (λ b, matches id b = true) l = Some (i, b)
  ↔ first_with_id id l i b.
Proof.
  unfold first_with_id. rewrite list_find_Some, matches_has_id.
  by setoid_rewrite not_matches_has_id.
Qed.

(** ** Object spread and [_.assign] *)

Lemma spread_after_id_lookup gid body k :
  (body ∪ {[ "id" := JStr gid ]}) !! k
  = match body !! k with
    | Some v => Some v
    | None => if decide (k = "id") then Some (JStr gid) else None
    end.
Proof.
  rewrite lookup_union. destruct (body !! k) as [v|] eqn:Hk.
  - by destruct ({[ "id" := JStr gid ]} !! k).
  - rewrite (left_id None _). case_decide as Hid.
    + subst k. apply lookup_singleton_eq.
    + by apply lookup_singleton_ne.
Qed.

Lemma spread_keeps_body_id gid body v :
  body !! "id" = Some v → body ∪ {[ "id" := JStr gid ]} = body.
Proof.
  intros Hv. apply map_eq. intros k. rewrite spread_after_id_lookup.
  destruct (body !! k) eqn:Hk; [done|]. case_decide; congruence.
Qed.

Lemma assign_lookup body b k :
  (body ∪ b) !! k
  = match body !! k with Some v => Some v | None => b !! k end.
Proof.
  rewrite lookup_union. destruct (body !! k), (b !! k); done.
Qed.

(** ** GET /books/{id} *)

(** C4: [GET /books/{id}] answers 200 with a record of that id exactly
    when the collection holds one, answers 404 exactly when it holds
    none, and leaves the store as it was. *)
Theorem get_by_id_200_or_404 id s :
  ((∃ b, fst (router_get id s) = inr (Send 200 (Book b))
         ∧ b ∈ mem s ∧ has_id id b)
   ↔ ∃ b, b ∈ mem s ∧ has_id id b)
  ∧ (fst (router_get id s) = inr (SendStatus 404)
     ↔ ∀ b, b ∈ mem s → ¬ has_id id b)
  ∧ snd (router_get id s) = s.
Proof.
  rewrite router_get_eq. simpl. split; [|split; [|done]].
  - split; [intros (b & _ & ?); by exists b|].
    intros [[i b] Hf]%find_some_iff. rewrite Hf. exists b.
    apply list_find_Some in Hf as (Hi & Hb & _).
    split; [done|]. split; [by eapply list_elem_of_lookup_2|].
    by apply matches_has_id.
  - rewrite <- find_none_iff.
    destruct (list_find _ _) as [[]|]; split; (done || congruence).
Qed.

(** ** DELETE /books/{id} *)

(** C7: after a [DELETE /books/{id}] that answered 200, an immediate
    [GET /books/{id}] answers 404. *)
Theorem delete_then_get_404 fs id s s' :
  router_delete fs id s = (inr (SendStatus 200), s') →
  router_get id s' = (inr (SendStatus 404), s').
Proof.
  rewrite router_delete_eq, router_get_eq. simpl.
  destruct fs; [|done..]. intros [= _ <-]. simpl.
  assert (list_find (λ b, matches id b = true)
            (filter (λ b, ¬ matches id b = true) (mem s)) = None) as ->;
    [|done].
  apply find_none_iff. by intros b [_ ?]%kept_no_match.
Qed.

(** C10: one [DELETE /books/{id}] takes every record with that id out of
    the collection and keeps the others in order; with duplicate ids more
    than one record goes, and the response is still one 200. *)
Theorem delete_removes_every_match :
  (∀ fs id s,
     let s' := snd (router_delete fs id s) in
     (∀ b, b ∈ mem s' ↔ b ∈ mem s ∧ ¬ has_id id b)
     ∧ sublist (mem s') (mem s)
     ∧ ∃ removed,
         fst (remove id s) = inr removed
         ∧ (∀ b, b ∈ removed ↔ b ∈ mem s ∧ has_id id b)
         ∧ removed ++ mem s' ≡ₚ mem s)
  ∧ (router_delete Done "x" (twice_x number)
       = (inr (SendStatus 200), Store [] (Serialized []))
     ∧ removed_count "x" (twice_x number) = 2).
Proof.
  split; [|by vm_compute].
  intros fs id s s'.
  assert (mem s' = filter (λ b, ¬ matches id b = true) (mem s)) as ->.
  { subst s'. apply router_delete_mem. }
  split; [apply kept_no_match|]. split; [apply sublist_filter|].
  eexists. split; [done|]. split; [apply removed_all_match|].
  apply filter_app_complement.
Qed.


(** ** PUT /books/{id} *)

(** C3: [PUT /books/{id}] merges the body over the stored record, in
    place: a field of the body replaces the record's, a field the body
    lacks stays, and no other record changes.  With [{author: X}] only
    [author] changes, [title] and [id] stay. *)
Theorem put_shallow_merge fs id body s i b :
  first_with_id id (mem s) i b →
  ∃ b', mem (snd (router_put fs id body s)) !! i = Some b'
    ∧ (∀ k v, body !! k = Some v → b' !! k = Some v)
    ∧ (∀ k, body !! k = None → b' !! k = b !! k)
    ∧ (∀ j, j ≠ i →
         mem (snd (router_put fs id body s)) !! j = mem s !! j)
    ∧ length (mem (snd (router_put fs id body s))) = length (mem s)
    ∧ (∀ X, body = {[ "author" := JStr X ]} →
         b' !! "author" = Some (JStr X)
         ∧ b' !! "title" = b !! "title"
         ∧ b' !! "id" = b !! "id").
Proof.
  intros Hfirst. pose proof Hfirst as (Hi & _ & _).
  apply find_first in Hfirst. rewrite router_put_mem, Hfirst.
  exists (body ∪ b).
  split_and!.
  - apply list_lookup_insert_eq. by eapply lookup_lt_Some.
  - intros k v Hk. by rewrite assign_lookup, Hk.
  - intros k Hk. by rewrite assign_lookup, Hk.
  - intros j Hj. by apply list_lookup_insert_ne.
  - apply length_insert.
  - intros X ->. rewrite !assign_lookup.
    rewrite lookup_singleton_eq, !lookup_singleton_ne; done.
Qed.

(** C1, amended: for an existing record and a body with no [id] field,
    [PUT /books/{id}] does not alter the record's id: the stored record is
    the merged one and its id is still the path id, which a 200 response
    shows.  A body with an [id] field replaces the stored id by that
    value, like any other field. *)
Theorem put_keeps_id_unless_body_has_one fs id body s i b :
  first_with_id id (mem s) i b →
  (body !! "id" = None →
     mem (snd (router_put fs id body s)) !! i = Some (body ∪ b)
     ∧ has_id id (body ∪ b)
     ∧ (∀ r, fst (router_put fs id body s) = inr r → status r = 200 →
             r = Send 200 (Book (body ∪ b)))
     ∧ fst (router_put Done id body s) = inr (Send 200 (Book (body ∪ b))))
  ∧ (∀ v, body !! "id" = Some v →
       mem (snd (router_put fs id body s)) !! i = Some (body ∪ b)
       ∧ (body ∪ b) !! "id" = Some v
       ∧ ∃ r, fst (router_put Done id body s) = inr r ∧ status r = 200).
Proof.
  intros Hfirst. pose proof Hfirst as (Hi & Hb & Hleast).
  apply find_first in Hfirst. rewrite router_put_mem, !router_put_eq, Hfirst.
  assert (i < length (mem s)) as Hlt by by eapply lookup_lt_Some.
  split.
  - intros Hnone.
    assert (has_id id (body ∪ b)) as Hb'.
    { unfold has_id. by rewrite assign_lookup, Hnone. }
    assert (list_find (λ b, matches id b = true) (<[i:=body ∪ b]> (mem s))
            = Some (i, body ∪ b)) as Hfound.
    { apply list_find_insert_Some. right; left. split_and!; try done.
      - by apply matches_has_id.
      - intros j z Hj Hji. apply not_matches_has_id. by eapply Hleast. }
    simpl. rewrite Hfound. split_and!; [|done| |done].
    + by apply list_lookup_insert_eq.
    + intros r. destruct fs; simpl; intros [= <-]; [done|discriminate..].
  - intros v Hv. split_and!.
    + by apply list_lookup_insert_eq.
    + by rewrite assign_lookup, Hv.
    + by eexists (Send 200 _).
Qed.

(** ** POST /books *)

(** C2, amended: for a body with no [id] field and a successful write,
    [POST /books] answers 201 with the created record, appended to the
    collection and persisted; its id is the generated string, of 5
    characters and so non-empty, and every other field is the body's.
    No uniqueness check is made: that id is borne by the new record
    alone exactly when no record of the prior collection had it. *)
Theorem post_assigns_generated_id gid body s :
  String.length gid = idLength →
  body !! "id" = None →
  ∃ b, router_post Done gid body s
       = (inr (Send 201 (Book b)),
          Store (mem s ++ [b]) (Serialized (mem s ++ [b])))
    ∧ has_id gid b
    ∧ String.length gid = 5 ∧ gid ≠ ""
    ∧ (∀ k, k ≠ "id" → b !! k = body !! k)
    ∧ ((∀ b', b' ∈ mem s → ¬ has_id gid b')
       ↔ ∀ j b', (mem s ++ [b]) !! j = Some b' → has_id gid b' →
                 j = length (mem s)).
Proof.
  intros Hlen Hnone. exists (body ∪ {[ "id" := JStr gid ]}).
  assert (has_id gid (body ∪ {[ "id" := JStr gid ]})) as Hb.
  { unfold has_id. rewrite spread_after_id_lookup, Hnone. by case_decide. }
  split_and!; try done.
  - by intros ->.
  - intros k Hk. rewrite spread_after_id_lookup.
    destruct (body !! k); [done|]. by case_decide.
  - split.
    + intros Hfresh j b' Hj Hb'.
      apply lookup_app_Some in Hj as [Hj|[Hge Hj]].
      * destruct (Hfresh b'); [by eapply list_elem_of_lookup_2|done].
      * apply list_lookup_singleton_Some in Hj as [Hj _]. lia.
    + intros Honly b' [j Hj]%list_elem_of_lookup_1 Hb'.
      pose proof (lookup_lt_Some _ _ _ Hj) as Hlt.
      assert (j = length (mem s)); [|lia].
      eapply Honly; [|done]. by apply lookup_app_l_Some.
Qed.

(** C9: when the body has an [id] field, the record [POST /books]
    creates carries the body's value as its id, whatever [nanoid]
    returned: the record is the body itself. *)
Theorem post_body_id_overrides gid body v s :
  body !! "id" = Some v →
  ∃ b, router_post Done gid body s
       = (inr (Send 201 (Book b)),
          Store (mem s ++ [b]) (Serialized (mem s ++ [b])))
    ∧ b !! "id" = Some v
    ∧ b = body.
Proof.
  intros Hv. exists body. rewrite router_post_eq. simpl.
  by rewrite (spread_keeps_body_id _ _ _ Hv).
Qed.

(** C6: right after a successful [POST /books], [GET /books] returns the
    list it returned before with one record appended at the end: the
    created one, which is the body with the generated id. *)
Theorem get_all_after_post gid body s before :
  router_get_all s = (inr (Send 200 (Books before)), s) →
  ∃ b s', router_post Done gid body s = (inr (Send 201 (Book b)), s')
    ∧ router_get_all s' = (inr (Send 200 (Books (before ++ [b]))), s')
    ∧ b = body ∪ {[ "id" := JStr gid ]}
    ∧ (∀ k, k ≠ "id" → b !! k = body !! k)
    ∧ (body !! "id" = None → has_id gid b).
Proof.
  rewrite router_get_all_eq. intros [= <-].
  eexists _, _. rewrite router_post_eq. simpl. split_and!; try done.
  - intros k Hk. rewrite spread_after_id_lookup.
    destruct (body !! k); [done|]. by case_decide.
  - intros Hnone. unfold has_id.
    rewrite spread_after_id_lookup, Hnone. by case_decide.
Qed.

(** ** Errors *)


End Facts.

(** * Further properties of the handlers *)

Section Composition.

Context {number : Type}.

Local Abbreviation book := (gmap string (json number)).
Local Abbreviation store := (store number).
Local Abbreviation request := (request number).

Implicit Types (s : store) (b body : book) (id gid : string)
  (l : list book) (fs : outcome) (w : world) (r : request).

(** ** Searching an updated array *)


Lemma find_insert_indifferent id l i x y :
  l !! i = Some x →
  ¬ has_id id x →
  ¬ has_id id y →
  list_find (λ b, matches id b = true) (<[i := y]> l)
  = list_find (λ b, matches id b = true) l.
Proof.
  revert i. induction l as [|a l IH]; intros i Hi Hx Hy; [done|].
  destruct i as [|i]; simpl in *.
  - injection Hi as ->.
    rewrite !decide_False by by apply not_matches_has_id. done.
  - destruct (decide (matches id a = true)); [done|].
    by rewrite IH.
Qed.

(** ** PUT /books/{id} *)

(** [PUT /books/{id}] on an id no record has answers 404 and leaves memory
    and file alone: no record is created and no write is attempted, so
    even a failing disk gives 404. *)
Theorem put_absent_404_no_write fs id body s :
  (∀ b, b ∈ mem s → ¬ has_id id b) →
  router_put fs id body s = (inr (SendStatus 404), s).
Proof.
  intros Habsent%find_none_iff. by rewrite router_put_eq, Habsent.
Qed.

(** When the body of a [PUT] carries an id other than the path id and no
    other record has the path id, the record is stored under the new id
    and the 200 response has no record in it: the handler looks the path
    id up again for the response and finds nothing. *)
Theorem put_new_id_answers_nothing id body s i b v :
  mem s !! i = Some b →
  has_id id b →
  (∀ j b', mem s !! j = Some b' → has_id id b' → j = i) →
  body !! "id" = Some v →
  v ≠ JStr id →
  router_put Done id body s
  = (inr (Send 200 Undefined),
     Store (<[i := body ∪ b]> (mem s))
       (Serialized (<[i := body ∪ b]> (mem s))))
  ∧ router_get id (snd (router_put Done id body s))
    = (inr (SendStatus 404), snd (router_put Done id body s)).
Proof.
  intros Hi Hb Honly Hv Hne.
  assert (first_with_id id (mem s) i b) as Hfirst%find_first.
  { split_and!; [done..|]. intros j b' Hj Hlt Hb'.
    specialize (Honly j b' Hj Hb'). lia. }
  assert (list_find (λ b, matches id b = true) (<[i := body ∪ b]> (mem s))
          = None) as Hgone.
  { apply find_none_iff. intros b' [j Hj]%list_elem_of_lookup_1 Hb'.
    apply list_lookup_insert_Some in Hj as [(-> & <- & _)|[Hji Hj]].
    - unfold has_id in Hb'. rewrite assign_lookup, Hv in Hb'. congruence.
    - by specialize (Honly j b' Hj Hb'). }
  rewrite router_put_eq, Hfirst. simpl. rewrite Hgone. split; [done|].
  rewrite router_get_eq. simpl. by rewrite Hgone.
Qed.


(** [GET /books/{id'}] answers the same before and after a
    [PUT /books/{id}] with another path id, as long as the body does not
    set the id to [id']. *)
Theorem put_leaves_other_ids fs id id' body s :
  id' ≠ id →
  body !! "id" ≠ Some (JStr id') →
  fst (router_get id' (snd (router_put fs id body s)))
  = fst (router_get id' s).
Proof.
  intros Hne Hbody. rewrite !router_get_eq, router_put_mem. simpl.
  destruct (list_find (λ b, matches id b = true) (mem s))
    as [[i b]|] eqn:Hfind; [|done].
  apply find_first in Hfind as (Hi & Hb & _).
  rewrite (find_insert_indifferent id' _ i b); [done..| |].
  - unfold has_id in *. congruence.
  - unfold has_id in *. rewrite assign_lookup.
    destruct (body !! "id"); congruence.
Qed.

(** ** DELETE /books/{id} *)


(** When the write of a [DELETE] throws, the handler produces no response
    of its own: the exception leaves it.  The matching records are out of
    the collection in memory all the same, so a lookup answers 404. *)
Theorem delete_write_error_escapes fs e id s :
  thrown fs = Some e →
  ∃ s', router_delete fs id s = (inl e, s')
    ∧ (∀ b, b ∈ mem s' ↔ b ∈ mem s ∧ ¬ has_id id b)
    ∧ router_get id s' = (inr (SendStatus 404), s').
Proof.
  intros He.
  assert (list_find (λ b, matches id b = true)
            (filter (λ b, ¬ matches id b = true) (mem s)) = None) as Hgone.
  { apply find_none_iff. by intros b [_ ?]%kept_no_match. }
  rewrite router_delete_eq.
  destruct fs; simplify_eq/=; eexists; (split; [done|]); simpl;
    (split; [apply kept_no_match|]); rewrite router_get_eq; simpl;
    by rewrite Hgone.
Qed.

(** ** POST /books and what follows it *)

(** [GET /books/{id}] right after a [POST] that created a record with
    generated id [gid] returns that record when no earlier record had the
    id, and the earlier record when one had. *)
Theorem get_after_post fs gid body s :
  body !! "id" = None →
  ((∀ b, b ∈ mem s → ¬ has_id gid b) →
   fst (router_get gid (snd (router_post fs gid body s)))
   = inr (Send 200 (Book (body ∪ {[ "id" := JStr gid ]}))))
  ∧ (∀ i b0, first_with_id gid (mem s) i b0 →
       fst (router_get gid (snd (router_post fs gid body s)))
       = inr (Send 200 (Book b0))).
Proof.
  intros Hnone. rewrite router_get_eq, router_post_mem. simpl.
  split.
  - intros Hfresh%find_none_iff. rewrite list_find_app_r by done. simpl.
    rewrite decide_True; [done|].
    apply matches_has_id. unfold has_id.
    rewrite spread_after_id_lookup, Hnone. by case_decide.
  - intros i b0 Hfirst%find_first.
    by rewrite (list_find_app_l _ _ _ _ _ Hfirst).
Qed.

(** Creating a record under a fresh generated id and deleting that id
    gives back the collection in memory as it was, and writes it to the
    file; when the file held its serialization before, the store is the
    one before the [POST]. *)
Theorem post_then_delete_restores fs gid body s :
  body !! "id" = None →
  (∀ b, b ∈ mem s → ¬ has_id gid b) →
  router_delete Done gid (snd (router_post fs gid body s))
  = (inr (SendStatus 200), Store (mem s) (Serialized (mem s)))
  ∧ (file s = Serialized (mem s) →
     snd (router_delete Done gid (snd (router_post fs gid body s))) = s).
Proof.
  intros Hnone Hfresh.
  assert (router_delete Done gid (snd (router_post fs gid body s))
          = (inr (SendStatus 200), Store (mem s) (Serialized (mem s))))
    as ->.
  { rewrite router_delete_eq, router_post_mem. simpl.
    assert (matches gid (body ∪ {[ "id" := JStr gid ]}) = true) as Hnew.
    { apply matches_has_id. unfold has_id.
      rewrite spread_after_id_lookup, Hnone. by case_decide. }
    rewrite !filter_app, (filter_all_kept _ _ Hfresh).
    rewrite (proj2 (removed_nil_iff _ _) Hfresh).
    rewrite (filter_cons_True (λ b, matches gid b = true)) by done.
    rewrite (filter_cons_False (λ b, ¬ matches gid b = true))
      by (intros H; by apply H).
    rewrite !filter_nil. simpl. by rewrite app_nil_r. }
  split; [done|]. simpl. intros <-. by destruct s.
Qed.

(** A [POST] answered 500 because the write threw has still added its
    record to the collection every later request sees, and the next write
    that succeeds puts it on file: here a [DELETE] of an id nobody has,
    itself answered 404. *)
Theorem failed_post_persisted_by_next_write fs e gid body id s :
  thrown fs = Some e →
  (∀ b, b ∈ mem s ++ [body ∪ {[ "id" := JStr gid ]}] → ¬ has_id id b) →
  ∃ s1 s2,
    router_post fs gid body s = (inr (Send 500 (Err e)), s1)
    ∧ router_get_all s1
      = (inr (Send 200 (Books (mem s ++ [body ∪ {[ "id" := JStr gid ]}]))),
         s1)
    ∧ router_delete Done id s1 = (inr (SendStatus 404), s2)
    ∧ file s2 = Serialized (mem s ++ [body ∪ {[ "id" := JStr gid ]}]).
Proof.
  intros He Habsent. rewrite router_post_eq.
  destruct fs; simplify_eq/=; eexists _, _; (split; [done|]); simpl;
    (split; [done|]); rewrite router_delete_eq; simpl;
    rewrite (proj2 (removed_nil_iff _ _) Habsent); simpl;
    by rewrite (filter_all_kept _ _ Habsent).
Qed.

(** ** Sequences of requests *)

Lemma handle_mem w r s :
  mem (snd (handle w r s))
  = match r with
    | GET_all | GET _ => mem s
    | POST body => mem s ++ [body ∪ {[ "id" := JStr (generated w) ]}]
    | PUT id body =>
        match list_find (λ b, matches id b = true) (mem s) with
        | Some (i, b) => <[i := body ∪ b]> (mem s)
        | None => mem s
        end
    | DELETE id => filter (λ b, ¬ matches id b = true) (mem s)
    end.
Proof.
  destruct r as [|id|body|id body|id]; simpl.
  - done.
  - by rewrite router_get_eq.
  - apply router_post_mem.
  - apply router_put_mem.
  - apply router_delete_mem.
Qed.

Lemma handle_file_written w r s :
  disk w = Done →
  file s = Serialized (mem s) →
  file (snd (handle w r s)) = Serialized (mem (snd (handle w r s))).
Proof.
  intros Hok Hsync. destruct r as [|id|body|id body|id]; simpl.
  - done.
  - by rewrite router_get_eq.
  - by rewrite router_post_eq, Hok.
  - rewrite router_put_eq, Hok.
    by destruct (list_find _ _) as [[i b]|].
  - by rewrite router_delete_eq, Hok.
Qed.

(** The status codes each route can answer with.  [GET /books] always
    answers 200; 500 comes from [POST] and [PUT] only, and only when the
    write threw; the one exception that leaves a handler is the write
    error of a [DELETE]. *)
Theorem responses_by_route w r s :
  match fst (handle w r s) with
  | inl e => (∃ id, r = DELETE id) ∧ thrown (disk w) = Some e
  | inr resp =>
      match r with
      | GET_all => status resp = 200
      | GET _ => status resp = 200 ∨ status resp = 404
      | POST _ =>
          (status resp = 201 ∧ disk w = Done)
          ∨ (status resp = 500 ∧ disk w ≠ Done)
      | PUT _ _ =>
          status resp = 404
          ∨ (status resp = 200 ∧ disk w = Done)
          ∨ (status resp = 500 ∧ disk w ≠ Done)
      | DELETE _ =>
          (status resp = 200 ∨ status resp = 404) ∧ disk w = Done
      end
  end.
Proof.
  destruct r as [|id|body|id body|id]; simpl.
  - done.
  - rewrite router_get_eq. simpl.
    destruct (list_find _ _) as [[]|]; [by left|by right].
  - rewrite router_post_eq.
    destruct (disk w); simpl; [by left|by right..].
  - rewrite router_put_eq.
    destruct (list_find _ _) as [[i b]|]; [|by left].
    destruct (disk w); simpl; right; [by left|by right..].
  - rewrite router_delete_eq. destruct (disk w); simpl; [|by eauto..].
    split; [|done]. destruct (Nat.eqb _ 0); [by right|by left].
Qed.

(** Every record the API can put in the collection has an [id] field:
    [POST] always writes one and neither [PUT] nor [DELETE] takes a field
    away.  So if the records in the collection have one, they all have one
    after any sequence of requests, whatever the bodies and whether the
    writes throw or not. *)
Theorem every_record_keeps_an_id trace s :
  Forall (λ b, is_Some (b !! "id")) (mem s) →
  Forall (λ b, is_Some (b !! "id")) (mem (run trace s)).
Proof.
  revert s. induction trace as [|[w r] trace IH]; intros s Hmem; [done|].
  simpl. apply IH. rewrite handle_mem.
  destruct r as [|id|body|id body|id]; try done.
  - apply Forall_app. split; [done|]. apply Forall_singleton.
    rewrite spread_after_id_lookup.
    destruct (body !! "id"); [done|]. by rewrite decide_True.
  - destruct (list_find _ _) as [[i b]|] eqn:Hfind; [|done].
    apply Forall_insert; [done|].
    apply list_find_Some in Hfind as (Hi & _ & _).
    rewrite assign_lookup. destruct (body !! "id"); [done|].
    by eapply (Forall_lookup_1 _ _ _ _ Hmem).
  - apply Forall_forall. intros b [_ Hb]%list_elem_of_filter.
    by eapply (proj1 (Forall_forall _ _) Hmem).
Qed.

(** As long as no write throws, the file holds the serialization of the
    collection that is in memory after every request, if it did at the
    start. *)
Theorem file_follows_memory trace s :
  Forall (λ wr, disk wr.1 = Done) trace →
  file s = Serialized (mem s) →
  file (run trace s) = Serialized (mem (run trace s)).
Proof.
  revert s. induction trace as [|[w r] trace IH]; intros s Hok Hsync;
    [done|].
  apply Forall_cons in Hok as [Hw Hok]. simpl.
  apply IH; [done|]. by apply handle_file_written.
Qed.

(** ** Distinct identifiers *)

Lemma omap_insert_same {B} (f : book → option B) l i x y :
  l !! i = Some x → f y = f x → omap f (<[i := y]> l) = omap f l.
Proof.
  revert i. induction l as [|a l IH]; intros i Hi Hf; [done|].
  destruct i as [|i]; csimpl in *.
  - injection Hi as ->. by rewrite Hf.
  - by rewrite (IH i).
Qed.

Lemma NoDup_omap_filter {B} (f : book → option B) (P : book → Prop)
    `{!∀ b, Decision (P b)} l :
  NoDup (omap f l) → NoDup (omap f (filter P l)).
Proof.
  induction l as [|a l IH]; [done|]. csimpl. intros Hnd.
  assert (NoDup (omap f l)) as Hl.
  { destruct (f a); [by apply NoDup_cons in Hnd as [_ ?]|done]. }
  destruct (decide (P a)).
  - rewrite filter_cons_True by done. csimpl.
    destruct (f a) as [y|]; [|by apply IH].
    apply NoDup_cons in Hnd as [Hy _]. apply NoDup_cons. split; [|by apply IH].
    intros (b & [_ Hb]%list_elem_of_filter & Hfb)%list_elem_of_omap.
    apply Hy, list_elem_of_omap. by exists b.
  - rewrite filter_cons_False by done. by apply IH.
Qed.

Lemma polite_keeps_ids_distinct w r s :
  NoDup (omap book_id (mem s)) →
  polite s w r →
  NoDup (omap book_id (mem (snd (handle w r s)))).
Proof.
  intros Hnd Hpolite. rewrite handle_mem.
  destruct r as [|id|body|id body|id]; simpl in *; try done.
  - destruct Hpolite as [Hnone Hfresh].
    rewrite omap_app. apply NoDup_app. split; [done|]. split.
    + intros t (b & Hb & Ht%book_id_has_id)%list_elem_of_omap.
      simpl. unfold book_id. rewrite spread_after_id_lookup, Hnone.
      rewrite decide_True by done.
      intros ->%list_elem_of_singleton. by destruct (Hfresh b).
    + simpl. destruct (book_id _); [apply NoDup_singleton|apply NoDup_nil_2].
  - destruct (list_find _ _) as [[i b]|] eqn:Hfind; [|done].
    apply list_find_Some in Hfind as (Hi & _ & _).
    rewrite (omap_insert_same _ _ _ b); [done..|].
    unfold book_id. by rewrite assign_lookup, Hpolite.
  - by apply NoDup_omap_filter.
Qed.

(** If the identifiers in the collection are pairwise distinct, clients
    send no [id] of their own and the generator never returns an id in
    use, then identifiers stay pairwise distinct after any sequence of
    requests, and a [DELETE] removes at most one record. *)
Theorem polite_requests_keep_ids_distinct trace s :
  NoDup (omap book_id (mem s)) →
  polite_trace trace s →
  NoDup (omap book_id (mem (run trace s)))
  ∧ ∀ id, removed_count id (run trace s) ≤ 1.
Proof.
  revert s. induction trace as [|[w r] trace IH]; intros s Hnd Hpolite.
  - split; [done|]. intros id. by apply distinct_ids_one_match.
  - destruct Hpolite as [Hr Hrest]. simpl. apply IH; [|done].
    by apply polite_keeps_ids_distinct.
Qed.

End Composition.

(** * The properties on concrete requests *)

(** From here on numbers are integers. *)
Local Abbreviation bookZ := (gmap string (json Z)).

Lemma one_book_first :
  first_with_id "V1StG" (mem (one_book Z)) 0 (dune_stored Z).
Proof.
  split_and!; [by vm_compute..|]. intros j b' _ Hj. lia.
Defined.

(** C1 as stated fails: a [PUT] whose body carries an [id] answers 200 and
    the stored record has the body's id, no longer the path id. *)
Lemma put_body_id_replaces_stored_id :
  ∃ (b' : bookZ) (s' : store Z),
    first_with_id "V1StG" (mem (one_book Z)) 0 (dune_stored Z)
    ∧ router_put Done "V1StG" (rename Z) (one_book Z)
      = (inr (Send 200 Undefined), s')
    ∧ mem s' !! 0 = Some b'
    ∧ has_id "zz" b'
    ∧ ¬ has_id "V1StG" b'.
Proof.
  eexists _, _. split_and!.
  - apply one_book_first.
  - by vm_compute.
  - by vm_compute.
  - by vm_compute.
  - intros H. vm_compute in H. discriminate H.
Qed.

Lemma put_keeps_id_unless_body_has_one_witness :
  first_with_id "V1StG" (mem (one_book Z)) 0 (dune_stored Z)
  ∧ retitle Z !! "id" = None
  ∧ mem (snd (router_put Done "V1StG" (retitle Z) (one_book Z))) !! 0
    = Some (retitle Z ∪ dune_stored Z)
  ∧ has_id "V1StG" (retitle Z ∪ dune_stored Z)
  ∧ (∀ r, fst (router_put Done "V1StG" (retitle Z) (one_book Z)) = inr r →
          status r = 200 →
          r = Send 200 (Book (retitle Z ∪ dune_stored Z)))
  ∧ fst (router_put Done "V1StG" (retitle Z) (one_book Z))
    = inr (Send 200 (Book (retitle Z ∪ dune_stored Z))).
Proof.
  split; [apply one_book_first|]. split; [by vm_compute|].
  apply (proj1 (put_keeps_id_unless_body_has_one
                  Done "V1StG" (retitle Z) (one_book Z) 0 (dune_stored Z)
                  one_book_first)).
  by vm_compute.
Defined.

(** C2 as stated fails: nothing compares the generated id with the ids
    in the collection, so the created record can share its id. *)
Lemma post_generated_id_can_collide :
  ∃ b0 b1 : bookZ,
    emma Z !! "id" = None
    ∧ String.length "V1StG" = idLength
    ∧ fst (router_post Done "V1StG" (emma Z) (one_book Z))
      = inr (Send 201 (Book b1))
    ∧ mem (snd (router_post Done "V1StG" (emma Z) (one_book Z))) !! 0
      = Some b0
    ∧ mem (snd (router_post Done "V1StG" (emma Z) (one_book Z))) !! 1
      = Some b1
    ∧ has_id "V1StG" b0
    ∧ has_id "V1StG" b1.
Proof. eexists _, _. split_and!; by vm_compute. Qed.

Lemma post_assigns_generated_id_witness :
  String.length "Uakgb" = idLength
  ∧ emma Z !! "id" = None
  ∧ ∃ b, router_post Done "Uakgb" (emma Z) (one_book Z)
         = (inr (Send 201 (Book b)),
            Store (mem (one_book Z) ++ [b])
              (Serialized (mem (one_book Z) ++ [b])))
      ∧ has_id "Uakgb" b
      ∧ String.length "Uakgb" = 5 ∧ "Uakgb" ≠ ""
      ∧ (∀ k, k ≠ "id" → b !! k = emma Z !! k)
      ∧ ((∀ b', b' ∈ mem (one_book Z) → ¬ has_id "Uakgb" b')
         ↔ ∀ j b', (mem (one_book Z) ++ [b]) !! j = Some b' →
                   has_id "Uakgb" b' → j = length (mem (one_book Z))).
Proof.
  split; [reflexivity|]. split; [by vm_compute|].
  apply (post_assigns_generated_id "Uakgb" (emma Z) (one_book Z));
    [reflexivity | by vm_compute].
Defined.

Lemma put_shallow_merge_witness :
  first_with_id "V1StG" (mem (one_book Z)) 0 (dune_stored Z)
  ∧ ∃ b', mem (snd (router_put Done "V1StG" (new_author Z)
                      (one_book Z))) !! 0 = Some b'
      ∧ (∀ k v, new_author Z !! k
                = Some v → b' !! k = Some v)
      ∧ (∀ k, new_author Z !! k
              = None → b' !! k = dune_stored Z !! k)
      ∧ (∀ j, j ≠ 0 →
           mem (snd (router_put Done "V1StG" (new_author Z)
                       (one_book Z))) !! j
           = mem (one_book Z) !! j)
      ∧ length (mem (snd (router_put Done "V1StG" (new_author Z)
                            (one_book Z))))
        = length (mem (one_book Z))
      ∧ (∀ X, (new_author Z)
              = {[ "author" := JStr X ]} →
           b' !! "author" = Some (JStr X)
           ∧ b' !! "title" = dune_stored Z !! "title"
           ∧ b' !! "id" = dune_stored Z !! "id").
Proof.
  split; [apply one_book_first|].
  apply (put_shallow_merge Done "V1StG" (new_author Z) (one_book Z) 0
           (dune_stored Z) one_book_first).
Defined.

Lemma delete_then_get_404_witness :
  router_delete Done "V1StG" (one_book Z)
  = (inr (SendStatus 200), initial)
  ∧ router_get "V1StG" (initial : store Z) = (inr (SendStatus 404), initial).
Proof.
  split; [by vm_compute|].
  apply (delete_then_get_404 Done "V1StG" (one_book Z) initial).
  by vm_compute.
Defined.




Lemma post_body_id_overrides_witness :
  emma_with_id Z !! "id" = Some (JStr "")
  ∧ ∃ b, router_post Done "Uakgb" (emma_with_id Z)
           (one_book Z)
         = (inr (Send 201 (Book b)),
            Store (mem (one_book Z) ++ [b])
              (Serialized (mem (one_book Z) ++ [b])))
      ∧ b !! "id" = Some (JStr "")
      ∧ b = (emma_with_id Z).
Proof.
  split; [by vm_compute|].
  apply (post_body_id_overrides "Uakgb" (emma_with_id Z)
           (JStr "") (one_book Z)).
  by vm_compute.
Defined.

(** The id a client supplies need not be fresh either. *)
Lemma post_body_id_not_fresh :
  ∃ b0 b1 : bookZ, mem (twice_x Z) = [b0; b1]
    ∧ has_id "x" b0 ∧ has_id "x" b1.
Proof. eexists _, _. split_and!; by vm_compute. Qed.

Lemma get_all_after_post_witness :
  router_get_all (one_book Z)
  = (inr (Send 200 (Books [(dune_stored Z)])), (one_book Z))
  ∧ ∃ b s', router_post Done "Uakgb" (emma Z) (one_book Z)
            = (inr (Send 201 (Book b)), s')
      ∧ router_get_all s'
        = (inr (Send 200 (Books ([(dune_stored Z)] ++ [b]))), s')
      ∧ b = emma Z ∪ {[ "id" := JStr "Uakgb" ]}
      ∧ (∀ k, k ≠ "id" → b !! k = emma Z !! k)
      ∧ (emma Z !! "id" = None → has_id "Uakgb" b).
Proof.
  split; [by vm_compute|].
  apply (get_all_after_post "Uakgb" (emma Z) (one_book Z) [(dune_stored Z)]).
  by vm_compute.
Defined.

(** The scenario of the specification: create, retitle, delete, look up. *)
Lemma scenario_post_put_delete_get :
  router_post Done "V1StG" (dune Z) initial
  = (inr (Send 201 (Book (dune_stored Z))), one_book Z)
  ∧ fst (router_put Done "V1StG" (retitle Z) (one_book Z))
    = inr (Send 200
             (Book {[ "id" := JStr "V1StG"; "title" := JStr "Dune Messiah";
                      "author" := JStr "Herbert" ]}))
  ∧ router_delete Done "V1StG"
      (snd (router_put Done "V1StG" (retitle Z) (one_book Z)))
    = (inr (SendStatus 200), initial)
  ∧ router_get "V1StG" (initial : store Z) = (inr (SendStatus 404), initial).
Proof. split_and!; by vm_compute. Qed.

(** ** Further properties on concrete requests *)

Lemma put_absent_404_no_write_witness :
  (∀ b, b ∈ mem (one_book Z) → ¬ has_id "nobody" b)
  ∧ router_put (CutOff (Error "ENOSPC")) "nobody" (retitle Z) (one_book Z)
    = (inr (SendStatus 404), one_book Z).
Proof.
  assert (∀ b, b ∈ mem (one_book Z) → ¬ has_id "nobody" b) as H
    by (apply find_none_iff; by vm_compute).
  split; [exact H|].
  exact (put_absent_404_no_write (CutOff (Error "ENOSPC")) "nobody"
           (retitle Z) (one_book Z) H).
Defined.

Lemma put_new_id_answers_nothing_witness :
  mem (one_book Z) !! 0 = Some (dune_stored Z)
  ∧ has_id "V1StG" (dune_stored Z)
  ∧ (∀ j b', mem (one_book Z) !! j = Some b' → has_id "V1StG" b' → j = 0)
  ∧ rename Z !! "id" = Some (JStr "zz")
  ∧ JStr "zz" ≠@{json Z} JStr "V1StG"
  ∧ router_put Done "V1StG" (rename Z) (one_book Z)
    = (inr (Send 200 Undefined),
       Store (<[0 := rename Z ∪ dune_stored Z]> (mem (one_book Z)))
         (Serialized (<[0 := rename Z ∪ dune_stored Z]> (mem (one_book Z)))))
  ∧ router_get "V1StG" (snd (router_put Done "V1StG" (rename Z) (one_book Z)))
    = (inr (SendStatus 404),
       snd (router_put Done "V1StG" (rename Z) (one_book Z))).
Proof.
  assert (mem (one_book Z) !! 0 = Some (dune_stored Z)) as H1
    by by vm_compute.
  assert (has_id "V1StG" (dune_stored Z)) as H2 by by vm_compute.
  assert (∀ j b', mem (one_book Z) !! j = Some b' → has_id "V1StG" b' →
                  j = 0) as H3.
  { intros j b' Hj%lookup_lt_Some _.
    assert (length (mem (one_book Z)) = 1) as Hlen by by vm_compute.
    lia. }
  assert (rename Z !! "id" = Some (JStr "zz")) as H4 by by vm_compute.
  assert (JStr "zz" ≠@{json Z} JStr "V1StG") as H5 by discriminate.
  split_and!; [done..| |];
    apply (put_new_id_answers_nothing "V1StG" (rename Z) (one_book Z) 0
             (dune_stored Z) (JStr "zz") H1 H2 H3 H4 H5).
Defined.


(** The [PUT] of this one does change a record: the first of two. *)
Lemma two_books_retitled :
  ∃ b b' : bookZ,
    mem (two_books Z) !! 0 = Some b
    ∧ mem (snd (router_put Done "V1StG" (retitle Z) (two_books Z))) !! 0
      = Some b'
    ∧ b !! "title" = Some (JStr "Dune")
    ∧ b' !! "title" = Some (JStr "Dune Messiah").
Proof. eexists _, _. split_and!; by vm_compute. Qed.

Lemma put_leaves_other_ids_witness :
  "Uakgb" ≠ "V1StG"
  ∧ retitle Z !! "id" ≠ Some (JStr "Uakgb")
  ∧ fst (router_get "Uakgb"
           (snd (router_put Done "V1StG" (retitle Z) (two_books Z))))
    = fst (router_get "Uakgb" (two_books Z)).
Proof.
  assert (retitle Z !! "id" ≠ Some (JStr "Uakgb")) as H
    by (intros H; vm_compute in H; discriminate H).
  split; [discriminate|]. split; [exact H|].
  apply (put_leaves_other_ids Done "V1StG" "Uakgb" (retitle Z) (two_books Z));
    [discriminate | exact H].
Defined.

Lemma delete_write_error_escapes_witness :
  thrown (CutOff (Error "ENOSPC")) = Some (Error "ENOSPC")
  ∧ ∃ s', router_delete (CutOff (Error "ENOSPC")) "V1StG" (two_books Z)
          = (inl (Error "ENOSPC"), s')
      ∧ (∀ b, b ∈ mem s' ↔ b ∈ mem (two_books Z) ∧ ¬ has_id "V1StG" b)
      ∧ router_get "V1StG" s' = (inr (SendStatus 404), s').
Proof.
  split; [reflexivity|].
  exact (delete_write_error_escapes (CutOff (Error "ENOSPC"))
           (Error "ENOSPC") "V1StG" (two_books Z) eq_refl).
Defined.

Lemma get_after_post_witness :
  emma Z !! "id" = None
  ∧ (∀ b, b ∈ mem (one_book Z) → ¬ has_id "Uakgb" b)
  ∧ fst (router_get "Uakgb" (snd (router_post Done "Uakgb" (emma Z)
                                    (one_book Z))))
    = inr (Send 200 (Book (emma Z ∪ {[ "id" := JStr "Uakgb" ]}))).
Proof.
  assert (emma Z !! "id" = None) as H1 by by vm_compute.
  assert (∀ b, b ∈ mem (one_book Z) → ¬ has_id "Uakgb" b) as H2
    by (apply find_none_iff; by vm_compute).
  split; [exact H1|]. split; [exact H2|].
  exact (proj1 (get_after_post Done "Uakgb" (emma Z) (one_book Z) H1) H2).
Defined.

Lemma post_then_delete_restores_witness :
  emma Z !! "id" = None
  ∧ (∀ b, b ∈ mem (one_book Z) → ¬ has_id "Uakgb" b)
  ∧ file (one_book Z) = Serialized (mem (one_book Z))
  ∧ router_delete Done "Uakgb"
      (snd (router_post Done "Uakgb" (emma Z) (one_book Z)))
    = (inr (SendStatus 200),
       Store (mem (one_book Z)) (Serialized (mem (one_book Z))))
  ∧ snd (router_delete Done "Uakgb"
           (snd (router_post Done "Uakgb" (emma Z) (one_book Z))))
    = one_book Z.
Proof.
  assert (emma Z !! "id" = None) as H1 by by vm_compute.
  assert (∀ b, b ∈ mem (one_book Z) → ¬ has_id "Uakgb" b) as H2
    by (apply find_none_iff; by vm_compute).
  assert (file (one_book Z) = Serialized (mem (one_book Z))) as H3
    by by vm_compute.
  split; [exact H1|]. split; [exact H2|]. split; [exact H3|].
  split.
  - exact (proj1 (post_then_delete_restores Done "Uakgb" (emma Z)
                    (one_book Z) H1 H2)).
  - exact (proj2 (post_then_delete_restores Done "Uakgb" (emma Z)
                    (one_book Z) H1 H2) H3).
Defined.

Lemma failed_post_persisted_by_next_write_witness :
  thrown (CutOff (Error "ENOSPC")) = Some (Error "ENOSPC")
  ∧ (∀ b, b ∈ mem (one_book Z) ++ [emma Z ∪ {[ "id" := JStr "Uakgb" ]}] →
          ¬ has_id "nobody" b)
  ∧ ∃ s1 s2,
      router_post (CutOff (Error "ENOSPC")) "Uakgb" (emma Z) (one_book Z)
      = (inr (Send 500 (Err (Error "ENOSPC"))), s1)
      ∧ router_get_all s1
        = (inr (Send 200
                  (Books (mem (one_book Z)
                          ++ [emma Z ∪ {[ "id" := JStr "Uakgb" ]}]))), s1)
      ∧ router_delete Done "nobody" s1 = (inr (SendStatus 404), s2)
      ∧ file s2
        = Serialized (mem (one_book Z)
                      ++ [emma Z ∪ {[ "id" := JStr "Uakgb" ]}]).
Proof.
  assert (∀ b, b ∈ mem (one_book Z) ++ [emma Z ∪ {[ "id" := JStr "Uakgb" ]}] →
               ¬ has_id "nobody" b) as H
    by (apply find_none_iff; by vm_compute).
  split; [reflexivity|]. split; [exact H|].
  exact (failed_post_persisted_by_next_write (CutOff (Error "ENOSPC"))
           (Error "ENOSPC") "Uakgb" (emma Z) "nobody" (one_book Z)
           eq_refl H).
Defined.

(** The rough session leaves two records, one of them under the empty id
    its client chose. *)
Lemma rough_session_leaves_two :
  length (mem (run (rough_session Z) initial)) = 2.
Proof. by vm_compute. Qed.

Lemma every_record_keeps_an_id_witness :
  Forall (λ b : bookZ, is_Some (b !! "id")) (mem (initial : store Z))
  ∧ Forall (λ b : bookZ, is_Some (b !! "id"))
      (mem (run (rough_session Z) initial)).
Proof.
  split; [apply Forall_nil_2|].
  apply (every_record_keeps_an_id (rough_session Z) initial).
  apply Forall_nil_2.
Defined.

Lemma session_writes_succeed :
  Forall (λ wr : world * request Z, disk wr.1 = Done) (session Z).
Proof. repeat constructor. Defined.

Lemma file_follows_memory_witness :
  Forall (λ wr : world * request Z, disk wr.1 = Done) (session Z)
  ∧ file (initial : store Z) = Serialized (mem (initial : store Z))
  ∧ file (run (session Z) initial)
    = Serialized (mem (run (session Z) initial)).
Proof.
  split; [exact session_writes_succeed|]. split; [reflexivity|].
  exact (file_follows_memory (session Z) initial session_writes_succeed
           eq_refl).
Defined.

Lemma session_polite : polite_trace (session Z) initial.
Proof.
  unfold session. cbn [polite_trace polite].
  split_and!; try done; try (by vm_compute);
    apply find_none_iff; by vm_compute.
Defined.

Lemma polite_requests_keep_ids_distinct_witness :
  NoDup (omap book_id (mem (initial : store Z)))
  ∧ polite_trace (session Z) initial
  ∧ NoDup (omap book_id (mem (run (session Z) initial)))
  ∧ ∀ id, removed_count id (run (session Z) initial) ≤ 1.
Proof.
  split; [apply NoDup_nil_2|]. split; [exact session_polite|].
  exact (polite_requests_keep_ids_distinct (session Z) initial
           (NoDup_nil_2 : NoDup (omap book_id (mem (initial : store Z))))
           session_polite).
Defined.
